(** * Register-template generators and interrupt-mask calculator

    A shallow embedding of the three Python scripts of the repository
    ([code_gen_xreg0.py], [code_gen_xreg1.py], [temp.py]) together with the
    properties their specification states about them.

    Python text ([str]) is a sequence of Unicode code points; the regular
    expression of the generators is run by a backtracking matcher with
    capture groups, the f-string templates are kept line by line, and
    [print] appends to an explicit standard-output text. *)

From Stdlib Require Import NArith ZArith List String Ascii Bool Lia.
Import ListNotations.

(** ** Python text *)

(** A character is its code point, a [str] the list of its characters. *)
Definition char := N.
Definition str := list char.

(** The text of a source literal (all literals of the scripts are ASCII). *)
Fixpoint py (s : string) : str :=
  match s with
  | EmptyString => []
  | String a s' => N_of_ascii a :: py s'
  end.

Definition newline : char := 10%N.
Definition underscore : char := 95%N.

Definition is_empty (s : str) : bool :=
  match s with [] => true | _ :: _ => false end.

Fixpoint str_eqb (a b : str) : bool :=
  match a, b with
  | [], [] => true
  | x :: a', y :: b' => N.eqb x y && str_eqb a' b'
  | _, _ => false
  end.

(** ** Character classes of [re] on [str] patterns

    [\w] is [str.isalnum() or '_'] and [\s] is [str.isspace()].  Below code
    point 128 both are written out; above, they are read from the Unicode
    character database, which the scripts do not contain: it is an
    interface, and the one fact used about it is that no alphanumeric
    character is white space. *)

Class UnicodeData := {
  uni_isalnum : char -> bool;
  uni_isspace : char -> bool;
  uni_disjoint : forall c, uni_isalnum c = true -> uni_isspace c = false
}.

Definition between (lo hi c : N) : bool := (N.leb lo c && N.leb c hi)%bool.

Definition ascii_isalnum (c : char) : bool :=
  between 48 57 c || between 65 90 c || between 97 122 c.

Definition ascii_isspace (c : char) : bool :=
  between 9 13 c || between 28 32 c.

Section Classes.
Context {U : UnicodeData}.

Definition isalnum (c : char) : bool :=
  if N.ltb c 128 then ascii_isalnum c else uni_isalnum c.

Definition isspace (c : char) : bool :=
  if N.ltb c 128 then ascii_isspace c else uni_isspace c.

(** [\w] *)
Definition is_word (c : char) : bool := isalnum c || N.eqb c underscore.

(** [\s] *)
Definition is_space (c : char) : bool := isspace c.
End Classes.

(** The database restricted to Latin-1: code points 128..255 classified as
    CPython does, every higher one in neither class.  It is the instance the
    examples run on. *)
Definition latin1_isalnum (c : char) : bool :=
  existsb (N.eqb c) [170; 178; 179; 181; 185; 186; 188; 189; 190]%N
  || between 192 214 c || between 216 246 c || between 248 255 c.

Definition latin1_isspace (c : char) : bool :=
  N.eqb c 133 || N.eqb c 160.

Definition Latin1 : UnicodeData.
Proof.
  refine {| uni_isalnum := latin1_isalnum; uni_isspace := latin1_isspace |}.
  intros c H. unfold latin1_isspace.
  destruct (N.eqb_spec c 133) as [->|_]; [vm_compute in H; discriminate|].
  destruct (N.eqb_spec c 160) as [->|_]; [vm_compute in H; discriminate|].
  reflexivity.
Defined.

(** The empty database: no character above code point 127 is in either
    class, as under the [re.ASCII] flag. *)
Definition AsciiOnly : UnicodeData.
Proof.
  refine {| uni_isalnum := fun _ => false; uni_isspace := fun _ => false |}.
  reflexivity.
Defined.

Definition is_ascii (s : str) : bool := forallb (fun c => N.ltb c 128) s.

(** Letters and digits among the code points below 256.  Below 128 they are
    [A-Za-z] and [0-9]; from 128 on they are the characters CPython's
    [str.isalpha] and [str.isdigit] accept.  The fractions 188..190 are
    numeric, so [str.isalnum] and [\w] accept them, but they are neither. *)
Definition ascii_isletter (c : char) : bool :=
  between 65 90 c || between 97 122 c.

Definition ascii_isdigit (c : char) : bool := between 48 57 c.

Definition latin1_isalpha (c : char) : bool :=
  existsb (N.eqb c) [170; 181; 186]%N
  || between 192 214 c || between 216 246 c || between 248 255 c.

Definition latin1_isdigit (c : char) : bool :=
  existsb (N.eqb c) [178; 179; 185]%N.

Definition letter_or_digit (c : char) : bool :=
  if N.ltb c 128 then ascii_isletter c || ascii_isdigit c
  else latin1_isalpha c || latin1_isdigit c.

(** ** The regular-expression matcher

    Patterns are kept parsed.  Only the constructs the two patterns use are
    present: a literal character or a category, taken once, greedily zero or
    more times ([*]) or greedily one or more times ([+]), in or out of a
    capturing group. *)

Inductive category := Word | Space.

Inductive atom :=
| Lit (c : char)
| Cat (k : category).

Inductive quant := One | ZeroOrMore | OneOrMore.

Inductive piece := Piece (a : atom) (q : quant).

Inductive elem :=
| Plain (p : piece)
| Group (ps : list piece).

Definition lits (s : str) : list elem :=
  map (fun c => Plain (Piece (Lit c) One)) s.

Section Matcher.
Context {U : UnicodeData}.

Definition accepts (a : atom) (c : char) : bool :=
  match a with
  | Lit c' => N.eqb c c'
  | Cat Word => is_word c
  | Cat Space => is_space c
  end.

(** Greedy repetition with backtracking: take one more character when it
    is accepted and the rest of the pattern then matches, otherwise go on
    with the rest of the pattern from here.  [acc] is the text matched so
    far inside the current group, [k] the rest of the pattern. *)
Fixpoint greedy {R} (p : char -> bool) (k : str -> str -> option R)
         (acc s : str) : option R :=
  match s with
  | c :: s' =>
      if p c then
        match greedy p k (acc ++ [c]) s' with
        | Some r => Some r
        | None => k acc s
        end
      else k acc s
  | [] => k acc []
  end.

Fixpoint match_pieces {R} (ps : list piece) (k : str -> str -> option R)
         (acc s : str) : option R :=
  match ps with
  | [] => k acc s
  | Piece a One :: ps' =>
      match s with
      | c :: s' =>
          if accepts a c then match_pieces ps' k (acc ++ [c]) s' else None
      | [] => None
      end
  | Piece a ZeroOrMore :: ps' =>
      greedy (accepts a) (match_pieces ps' k) acc s
  | Piece a OneOrMore :: ps' =>
      match s with
      | c :: s' =>
          if accepts a c
          then greedy (accepts a) (match_pieces ps' k) (acc ++ [c]) s'
          else None
      | [] => None
      end
  end.

(** [caps] are the texts of the groups closed so far, in order. *)
Fixpoint match_elems (es : list elem) (caps : list str) (s : str)
  : option (list str) :=
  match es with
  | [] => Some caps
  | Plain p :: es' =>
      match_pieces [p] (fun _ s' => match_elems es' caps s') [] s
  | Group ps :: es' =>
      match_pieces ps (fun g s' => match_elems es' (caps ++ [g]) s') [] s
  end.

(** [re.match(pattern, string)]: the pattern is tried at the start of the
    string only, and nothing is required of what follows the match.  The
    match object is the list of its groups. *)
Definition re_match (pattern : list elem) (s : str) : option (list str) :=
  match_elems pattern [] s.

(** [m.group(i)] for [i >= 1]. *)
Definition group (m : list str) (i : nat) : str := nth (Nat.pred i) m [].
End Matcher.

(** ** Exceptions and results *)

Inductive exn := ValueError (msg : string).

Inductive result (A : Type) :=
| Return (a : A)
| Raise (e : exn).
Arguments Return {A} a.
Arguments Raise {A} e.

(** ** f-strings

    A template is the list of its lines; a line is literal text (with [{{]
    and [}}] already read as braces) and replacement fields.  Every line of
    both templates ends in a newline. *)

Inductive part :=
| Txt (s : string)
| Var_reg_name
| Var_reg_addr.

Definition format_part (reg_name reg_addr : str) (p : part) : str :=
  match p with
  | Txt s => py s
  | Var_reg_name => reg_name
  | Var_reg_addr => reg_addr
  end.

Definition format_line (reg_name reg_addr : str) (l : list part) : str :=
  flat_map (format_part reg_name reg_addr) l ++ [newline].

Definition fstring (t : list (list part)) (reg_name reg_addr : str) : str :=
  flat_map (format_line reg_name reg_addr) t.

(** [print(x)] on a standard output holding [stdout]. *)
Definition print (stdout x : str) : str := stdout ++ x ++ [newline].

(** ** The generator scripts

    [code_gen_xreg0.py] and [code_gen_xreg1.py] are the same program up to
    the pattern and the template; their common text is embedded once. *)

Module Generator.
Section Script.
Context {U : UnicodeData}.
Variable pattern : list elem.
Variable template : list (list part).

Definition generate_code (reg_name reg_addr : str) : str :=
  fstring template reg_name reg_addr.

Definition extract_macro_parameters (input_str : str) : result (str * str) :=
  match re_match pattern input_str with
  | Some m =>
      let reg_name := group m 1 in
      let reg_addr := group m 2 in
      Return (reg_name, reg_addr)
  | None =>
      Raise (ValueError "Input string does not match the expected format.")
  end.

(** The [__main__] block.  [file] holds the lines the successive
    [file.readline()] calls are still to return; at the end of the file
    [readline] returns the empty string, which ends the [while].  An
    exception leaves the loop with the output written so far. *)
Fixpoint main (file : list str) (stdout : str) : str * result unit :=
  match file with
  | [] => (stdout, Return tt)
  | input_str :: file' =>
      if is_empty input_str then (stdout, Return tt)
      else
        match extract_macro_parameters input_str with
        | Return (reg_name, reg_addr) =>
            main file' (print stdout (generate_code reg_name reg_addr))
        | Raise e => (stdout, Raise e)
        end
  end.
End Script.
End Generator.

(** The capture-group tail shared by both patterns:
    [(\w+),\s*(\w+)\);] *)
Definition macro_arguments : list elem :=
  [Group [Piece (Cat Word) OneOrMore]]
  ++ lits (py ",")
  ++ [Plain (Piece (Cat Space) ZeroOrMore);
      Group [Piece (Cat Word) OneOrMore]]
  ++ lits (py ");").

Module XReg0.
Definition template : list (list part) :=
  [ [Txt "bitflags! {"];
    [Txt "    struct "; Var_reg_name; Txt ": u32 {"];
    [Txt "        const PULL_MASK = genmask!(9, 8);"];
    [Txt "        const DRIVE_MASK = genmask!(7, 4);"];
    [Txt "        const FUNC_MASK = genmask!(2, 0);"];
    [Txt "        const FUNC_BIT0 = 1 << 0;"];
    [Txt "        const FUNC_BIT1 = 1 << 1;"];
    [Txt "        const FUNC_BIT2 = 1 << 2;"];
    [Txt "        const DRIVE_BIT0 = 1 << 4;"];
    [Txt "        const DRIVE_BIT1 = 1 << 5;"];
    [Txt "        const DRIVE_BIT2 = 1 << 6;"];
    [Txt "        const DRIVE_BIT3 = 1 << 7;"];
    [Txt "        const PULL_BIT0 = 1 << 8;"];
    [Txt "        const PULL_BIT1 = 1 << 9;"];
    [Txt "    }"];
    [Txt "}"];
    [];
    [Txt "impl FlagReg for "; Var_reg_name; Txt " {"];
    [Txt "    const REG: u32 = "; Var_reg_addr; Txt ";"];
    [Txt "}"];
    [];
    [Txt "impl From<u32> for "; Var_reg_name; Txt " {"];
    [Txt "    fn from(x: u32) -> Self {"];
    [Txt "        Self::from_bits_truncate(x)"];
    [Txt "    }"];
    [Txt "}"];
    [];
    [Txt "impl Into<u32> for "; Var_reg_name; Txt " {"];
    [Txt "    fn into(self) -> u32 {"];
    [Txt "        self.bits()"];
    [Txt "    }"];
    [Txt "}"];
    [];
    [Txt "impl XReg0 for "; Var_reg_name; Txt " {"];
    [];
    [Txt "}"] ].

(** [r'X_REG0!\((\w+),\s*(\w+)\);'] *)
Definition macro : str := py "X_REG0".
Definition pattern : list elem :=
  lits (macro ++ py "!(") ++ macro_arguments.

Section Script.
Context {U : UnicodeData}.
Definition generate_code := Generator.generate_code template.
Definition extract_macro_parameters :=
  Generator.extract_macro_parameters pattern.
Definition main := Generator.main pattern template.
End Script.
End XReg0.

Module XReg1.
Definition template : list (list part) :=
  [ [Txt "bitflags! {"];
    [Txt "    struct "; Var_reg_name; Txt ": u32 {"];
    [Txt "        const OUT_DELAY_EN = 1 << 8;"];
    [Txt "        const OUT_DELAY_DELICATE_MASK = genmask!(11,9);"];
    [Txt "        const OUT_DELAY_DELICATE_BIT0 = 1 << 9;"];
    [Txt "        const OUT_DELAY_DELICATE_BIT1 = 1 << 10;"];
    [Txt "        const OUT_DELAY_DELICATE_BIT2 = 1 << 11;"];
    [Txt "        const OUT_DELAY_ROUGH_MASK = genmask!(14,12);"];
    [Txt "        const OUT_DELAY_ROUGH_BIT0 = 1 << 12;"];
    [Txt "        const OUT_DELAY_ROUGH_BIT1 = 1 << 13;"];
    [Txt "        const OUT_DELAY_ROUGH_BIT2 = 1 << 14;"];
    [Txt "        const IN_DELAY_EN = 1 << 0;"];
    [Txt "        const IN_DELAY_DELICATE_MASK = genmask!(3,1);"];
    [Txt "        const IN_DELAY_DELICATE_BIT0 = 1 << 1;"];
    [Txt "        const IN_DELAY_DELICATE_BIT1 = 1 << 2;"];
    [Txt "        const IN_DELAY_DELICATE_BIT2 = 1 << 3;"];
    [Txt "        const IN_DELAY_ROUGH_MASK = genmask!(6,4);"];
    [Txt "        const IN_DELAY_ROUGH_BIT0 = 1 << 4;"];
    [Txt "        const IN_DELAY_ROUGH_BIT1 = 1 << 5;"];
    [Txt "        const IN_DELAY_ROUGH_BIT2 = 1 << 6;"];
    [Txt "    }"];
    [Txt "}"];
    [];
    [Txt "impl FlagReg for "; Var_reg_name; Txt " {"];
    [Txt "    const REG: u32 = "; Var_reg_addr; Txt ";"];
    [Txt "}"];
    [];
    [Txt "impl From<u32> for "; Var_reg_name; Txt " {"];
    [Txt "    fn from(x: u32) -> Self {"];
    [Txt "        Self::from_bits_truncate(x)"];
    [Txt "    }"];
    [Txt "}"];
    [];
    [Txt "impl Into<u32> for "; Var_reg_name; Txt " {"];
    [Txt "    fn into(self) -> u32 {"];
    [Txt "        self.bits()"];
    [Txt "    }"];
    [Txt "}"];
    [];
    [Txt "impl XReg1 for "; Var_reg_name; Txt " {"];
    [];
    [Txt "}"] ].

(** [r'X_REG1!\((\w+),\s*(\w+)\);'] *)
Definition macro : str := py "X_REG1".
Definition pattern : list elem :=
  lits (macro ++ py "!(") ++ macro_arguments.

Section Script.
Context {U : UnicodeData}.
Definition generate_code := Generator.generate_code template.
Definition extract_macro_parameters :=
  Generator.extract_macro_parameters pattern.
Definition main := Generator.main pattern template.
End Script.
End XReg1.

(** ** The mask calculator, [temp.py] *)

Module Temp.
Local Open Scope Z_scope.

Definition hex_digit (d : N) : char :=
  (if N.ltb d 10 then 48 + d else 97 + (d - 10))%N.

(** The digits of a hexadecimal numeral, most significant first. *)
Fixpoint hex_chars (u : Hexadecimal.uint) : str :=
  match u with
  | Hexadecimal.Nil => []
  | Hexadecimal.D0 u' => hex_digit 0 :: hex_chars u'
  | Hexadecimal.D1 u' => hex_digit 1 :: hex_chars u'
  | Hexadecimal.D2 u' => hex_digit 2 :: hex_chars u'
  | Hexadecimal.D3 u' => hex_digit 3 :: hex_chars u'
  | Hexadecimal.D4 u' => hex_digit 4 :: hex_chars u'
  | Hexadecimal.D5 u' => hex_digit 5 :: hex_chars u'
  | Hexadecimal.D6 u' => hex_digit 6 :: hex_chars u'
  | Hexadecimal.D7 u' => hex_digit 7 :: hex_chars u'
  | Hexadecimal.D8 u' => hex_digit 8 :: hex_chars u'
  | Hexadecimal.D9 u' => hex_digit 9 :: hex_chars u'
  | Hexadecimal.Da u' => hex_digit 10 :: hex_chars u'
  | Hexadecimal.Db u' => hex_digit 11 :: hex_chars u'
  | Hexadecimal.Dc u' => hex_digit 12 :: hex_chars u'
  | Hexadecimal.Dd u' => hex_digit 13 :: hex_chars u'
  | Hexadecimal.De u' => hex_digit 14 :: hex_chars u'
  | Hexadecimal.Df u' => hex_digit 15 :: hex_chars u'
  end.

(** [f"{n:#x}"]: sign, [0x], then the digits of the absolute value. *)
Definition format_hash_x (n : Z) : str :=
  (if n <? 0 then py "-" else []) ++ py "0x"
  ++ hex_chars (N.to_hex_uint (Z.abs_N n)).

(** Locals of [output_int_mask]. *)
Definition FSDIF_INT_RE_BIT := Z.shiftl 1 1.
Definition FSDIF_INT_CMD_BIT := Z.shiftl 1 2.
Definition FSDIF_INT_RCRC_BIT := Z.shiftl 1 6.
Definition FSDIF_INT_RTO_BIT := Z.shiftl 1 8.
Definition FSDIF_INT_HTO_BIT := Z.shiftl 1 10.
Definition FSDIF_INT_HLE_BIT := Z.shiftl 1 12.

Definition FSDIF_INT_DTO_BIT := Z.shiftl 1 3.
Definition FSDIF_INT_DCRC_BIT := Z.shiftl 1 7.
Definition FSDIF_INT_DRTO_BIT := Z.shiftl 1 9.
Definition FSDIF_INT_SBE_BCI_BIT := Z.shiftl 1 13.

Definition FSDIF_INTS_CMD_MASK :=
  Z.lor (Z.lor (Z.lor (Z.lor (Z.lor
    FSDIF_INT_RE_BIT FSDIF_INT_CMD_BIT) FSDIF_INT_RCRC_BIT)
    FSDIF_INT_RTO_BIT) FSDIF_INT_HTO_BIT) FSDIF_INT_HLE_BIT.

Definition FSDIF_INTS_DATA_MASK :=
  Z.lor (Z.lor (Z.lor
    FSDIF_INT_DTO_BIT FSDIF_INT_DCRC_BIT) FSDIF_INT_DRTO_BIT)
    FSDIF_INT_SBE_BCI_BIT.

Definition output_int_mask (stdout : str) : str :=
  let stdout :=
    print stdout
      (py "FSDIF_INTS_CMD_MASK: " ++ format_hash_x FSDIF_INTS_CMD_MASK) in
  print stdout
    (py "FSDIF_INTS_DATA_MASK: " ++ format_hash_x FSDIF_INTS_DATA_MASK).

(** Locals of [dmac_int_ena]. *)
Definition FSDIF_DMAC_INT_ENA_FBE := Z.shiftl 1 2.
Definition FSDIF_DMAC_INT_ENA_DU := Z.shiftl 1 4.
Definition FSDIF_DMAC_INT_ENA_NIS := Z.shiftl 1 8.
Definition FSDIF_DMAC_INT_ENA_AIS := Z.shiftl 1 9.

Definition FSDIF_DMAC_INTS_MASK :=
  Z.lor (Z.lor (Z.lor
    FSDIF_DMAC_INT_ENA_FBE FSDIF_DMAC_INT_ENA_DU) FSDIF_DMAC_INT_ENA_NIS)
    FSDIF_DMAC_INT_ENA_AIS.

Definition dmac_int_ena (stdout : str) : str :=
  print stdout
    (py "FSDIF_DMAC_INTS_MASK: " ++ format_hash_x FSDIF_DMAC_INTS_MASK).

(** The [__main__] block calls [dmac_int_ena] and nothing else. *)
Definition main (stdout : str) : str := dmac_int_ena stdout.
End Temp.

(** ** Reading printed text

    Functions of the specification side: they take the text a script has
    printed apart, so that statements about its lines, the constants it
    declares and their values can be evaluated. *)

Fixpoint strip_prefix (p s : str) : option str :=
  match p, s with
  | [], _ => Some s
  | a :: p', b :: s' => if N.eqb a b then strip_prefix p' s' else None
  | _ :: _, [] => None
  end.

Definition strip_suffix (p s : str) : option str :=
  option_map (@rev char) (strip_prefix (rev p) (rev s)).

(** The text before and after the first occurrence of [sep]. *)
Fixpoint split_once (sep s : str) : option (str * str) :=
  match strip_prefix sep s with
  | Some rest => Some ([], rest)
  | None =>
      match s with
      | [] => None
      | c :: s' =>
          match split_once sep s' with
          | Some (a, b) => Some (c :: a, b)
          | None => None
          end
      end
  end.

(** The lines of a text, without their newlines. *)
Fixpoint lines_from (cur s : str) : list str :=
  match s with
  | [] => if is_empty cur then [] else [cur]
  | c :: s' =>
      if N.eqb c newline then cur :: lines_from [] s'
      else lines_from (cur ++ [c]) s'
  end.

Definition splitlines (s : str) : list str := lines_from [] s.

Definition bind {A B} (o : option A) (f : A -> option B) : option B :=
  match o with Some a => f a | None => None end.

(** [        const NAME = VALUE;] *)
Definition const_decl (line : str) : option (str * str) :=
  bind (strip_prefix (py "        const ") line) (fun d =>
  bind (split_once (py " = ") d) (fun '(name, v) =>
  bind (strip_suffix (py ";") v) (fun value => Some (name, value)))).

(** The declarations up to the line that closes the [struct]. *)
Fixpoint struct_body (ls : list str) : option (list (str * str)) :=
  match ls with
  | [] => None
  | l :: ls' =>
      if str_eqb l (py "    }") then Some []
      else
        match const_decl l, struct_body ls' with
        | Some d, Some ds => Some (d :: ds)
        | _, _ => None
        end
  end.

(** The bit-flag type a block opens with: its name and its constants. *)
Definition declared_flags (out : str) : option (str * list (str * str)) :=
  match splitlines out with
  | l0 :: l1 :: body =>
      if str_eqb l0 (py "bitflags! {") then
        bind (strip_prefix (py "    struct ") l1) (fun h =>
        bind (strip_suffix (py ": u32 {") h) (fun name =>
        bind (struct_body body) (fun cs => Some (name, cs))))
      else None
  | _ => None
  end.

(** The register address [impl FlagReg for NAME] gives. *)
Fixpoint flagreg_address (name : str) (ls : list str) : option str :=
  match ls with
  | l :: ((l' :: _) as ls') =>
      if str_eqb l (py "impl FlagReg for " ++ name ++ py " {") then
        bind (strip_prefix (py "    const REG: u32 = ") l')
             (strip_suffix (py ";"))
      else flagreg_address name ls'
  | _ => None
  end.

Definition is_digit (c : char) : bool := between 48 57 c.

Fixpoint decimal_from (acc : N) (s : str) : option N :=
  match s with
  | [] => Some acc
  | c :: s' =>
      if is_digit c then decimal_from (10 * acc + (c - 48))%N s' else None
  end.

Definition decimal (s : str) : option N :=
  if is_empty s then None else decimal_from 0%N s.

Fixpoint lstrip (s : str) : str :=
  match s with
  | c :: s' => if N.eqb c 32 then lstrip s' else s
  | [] => []
  end.

(** Modelled from the spec: the [genmask!] macro of the generated Rust code,
    which is not among the sources; the glossary gives it as the contiguous
    mask of an inclusive high-to-low bit range. *)
Definition genmask (h l : N) : Z :=
  Z.shiftl (Z.ones (Z.of_N h - Z.of_N l + 1)) (Z.of_N l).

(** The number a constant's initialiser denotes: [1 << K] or
    [genmask!(H, L)]. *)
Definition const_value (v : str) : option Z :=
  match strip_prefix (py "1 << ") v with
  | Some k => option_map (fun k => Z.shiftl 1 (Z.of_N k)) (decimal k)
  | None =>
      bind (strip_prefix (py "genmask!(") v) (fun a =>
      bind (strip_suffix (py ")") a) (fun a =>
      bind (split_once (py ",") a) (fun '(h, l) =>
      bind (decimal h) (fun h =>
      bind (decimal (lstrip l)) (fun l => Some (genmask h l))))))
  end.

Fixpoint const_values (cs : list (str * str)) : option (list (str * Z)) :=
  match cs with
  | [] => Some []
  | (n, v) :: cs' =>
      match const_value v, const_values cs' with
      | Some z, Some zs => Some ((n, z) :: zs)
      | _, _ => None
      end
  end.

Definition or_all (zs : list Z) : Z := fold_right Z.lor 0%Z zs.

(** [LABEL: 0x<digits>]: lower-case digits, and no leading zero on a value
    other than zero. *)
Definition is_lower_hex (c : char) : bool :=
  between 48 57 c || between 97 102 c.

Definition hex_value (v : str) : bool :=
  match strip_prefix (py "0x") v with
  | Some (d :: ds) =>
      forallb is_lower_hex (d :: ds) && (negb (N.eqb d 48) || is_empty ds)
  | _ => false
  end.

Definition mask_line (l : str) : bool :=
  match split_once (py ": ") l with
  | Some (label, v) =>
      negb (is_empty label)
      && forallb (fun c => ascii_isalnum c || N.eqb c underscore) label
      && hex_value v
  | None => false
  end.

(** ** Well-formed macro-invocation lines *)

Inductive variant := VariantA | VariantB.

Section Lines.
Context {U : UnicodeData}.

(** A non-empty run of word characters. *)
Definition word_token (s : str) : bool :=
  negb (is_empty s) && forallb is_word s.

(** [MACRO!(NAME,<ws>ADDR);<rest>] *)
Definition invocation (macro name ws addr rest : str) : str :=
  macro ++ py "!(" ++ name ++ py "," ++ ws ++ addr ++ py ");" ++ rest.

(** The lines the expected pattern describes. *)
Definition well_formed (macro line : str) : Prop :=
  exists name ws addr rest,
    line = invocation macro name ws addr rest
    /\ word_token name = true
    /\ forallb is_space ws = true
    /\ word_token addr = true.

Definition macro_of (v : variant) : str :=
  match v with VariantA => XReg0.macro | VariantB => XReg1.macro end.

Definition template_of (v : variant) : list (list part) :=
  match v with VariantA => XReg0.template | VariantB => XReg1.template end.

Definition extract_of (v : variant) : str -> result (str * str) :=
  match v with
  | VariantA => XReg0.extract_macro_parameters
  | VariantB => XReg1.extract_macro_parameters
  end.

Definition main_of (v : variant) : list str -> str -> str * result unit :=
  match v with VariantA => XReg0.main | VariantB => XReg1.main end.
End Lines.

Definition malformed : exn :=
  ValueError "Input string does not match the expected format.".

(** In [s], no character accepted by [p] comes first. *)
Definition starts_without (p : char -> bool) (s : str) : Prop :=
  match s with [] => True | c :: _ => p c = false end.

(** ** Whole runs and whole blocks *)

Definition generate_of (v : variant) : str -> str -> str :=
  match v with
  | VariantA => XReg0.generate_code
  | VariantB => XReg1.generate_code
  end.

Section Runs.
Context {U : UnicodeData}.

(** The extraction returns on this line. *)
Definition parses (v : variant) (line : str) : bool :=
  match extract_of v line with Return _ => true | Raise _ => false end.

(** What one pass of the loop body prints for a line. *)
Definition block_of (v : variant) (line : str) : str :=
  match extract_of v line with
  | Return (reg_name, reg_addr) => print [] (generate_of v reg_name reg_addr)
  | Raise _ => []
  end.
End Runs.

Definition no_newline (s : str) : bool :=
  forallb (fun c => negb (N.eqb c newline)) s.

(** A template part that brings no newline of its own. *)
Definition part_on_one_line (p : part) : bool :=
  match p with Txt s => no_newline (py s) | _ => true end.

(** The constants of the two templates, as [declared_flags] reads them. *)
Definition constants_of (v : variant) : list (str * str) :=
  match v with
  | VariantA =>
      [ (py "PULL_MASK", py "genmask!(9, 8)");
        (py "DRIVE_MASK", py "genmask!(7, 4)");
        (py "FUNC_MASK", py "genmask!(2, 0)");
        (py "FUNC_BIT0", py "1 << 0");
        (py "FUNC_BIT1", py "1 << 1");
        (py "FUNC_BIT2", py "1 << 2");
        (py "DRIVE_BIT0", py "1 << 4");
        (py "DRIVE_BIT1", py "1 << 5");
        (py "DRIVE_BIT2", py "1 << 6");
        (py "DRIVE_BIT3", py "1 << 7");
        (py "PULL_BIT0", py "1 << 8");
        (py "PULL_BIT1", py "1 << 9") ]
  | VariantB =>
      [ (py "OUT_DELAY_EN", py "1 << 8");
        (py "OUT_DELAY_DELICATE_MASK", py "genmask!(11,9)");
        (py "OUT_DELAY_DELICATE_BIT0", py "1 << 9");
        (py "OUT_DELAY_DELICATE_BIT1", py "1 << 10");
        (py "OUT_DELAY_DELICATE_BIT2", py "1 << 11");
        (py "OUT_DELAY_ROUGH_MASK", py "genmask!(14,12)");
        (py "OUT_DELAY_ROUGH_BIT0", py "1 << 12");
        (py "OUT_DELAY_ROUGH_BIT1", py "1 << 13");
        (py "OUT_DELAY_ROUGH_BIT2", py "1 << 14");
        (py "IN_DELAY_EN", py "1 << 0");
        (py "IN_DELAY_DELICATE_MASK", py "genmask!(3,1)");
        (py "IN_DELAY_DELICATE_BIT0", py "1 << 1");
        (py "IN_DELAY_DELICATE_BIT1", py "1 << 2");
        (py "IN_DELAY_DELICATE_BIT2", py "1 << 3");
        (py "IN_DELAY_ROUGH_MASK", py "genmask!(6,4)");
        (py "IN_DELAY_ROUGH_BIT0", py "1 << 4");
        (py "IN_DELAY_ROUGH_BIT1", py "1 << 5");
        (py "IN_DELAY_ROUGH_BIT2", py "1 << 6") ]
  end.

(** * Facts about the matcher *)

Section MatcherFacts.
Context {U : UnicodeData}.

Lemma between_spec lo hi c :
  between lo hi c = true <-> (lo <= c <= hi)%N.
Proof.
  unfold between. rewrite andb_true_iff, !N.leb_le. tauto.
Qed.

Lemma is_word_spec c :
  is_word c = true <-> isalnum c = true \/ c = underscore.
Proof.
  unfold is_word. rewrite orb_true_iff, N.eqb_eq. tauto.
Qed.

Lemma is_word_not_space c : is_word c = true -> is_space c = false.
Proof.
  unfold is_word, is_space, isalnum, isspace, underscore.
  destruct (N.ltb_spec c 128) as [Hlt|Hge].
  - intros H. destruct (ascii_isspace c) eqn:E; [|reflexivity].
    exfalso. unfold ascii_isalnum, ascii_isspace in *.
    rewrite !orb_true_iff, !between_spec in E.
    rewrite !orb_true_iff, !between_spec, N.eqb_eq in H. lia.
  - rewrite orb_true_iff, N.eqb_eq.
    intros [H|H]; [now apply uni_disjoint | lia].
Qed.

Lemma greedy_longest R p (k : str -> str -> option R) run :
  forall acc rest r,
    forallb p run = true ->
    starts_without p rest ->
    k (acc ++ run) rest = Some r ->
    greedy p k acc (run ++ rest) = Some r.
Proof.
  induction run as [|c run IH]; intros acc rest r Hall Hrest Hk.
  - rewrite app_nil_r in Hk. destruct rest as [|d rest]; simpl; [exact Hk|].
    simpl in Hrest. now rewrite Hrest.
  - simpl in Hall. apply andb_true_iff in Hall as [Hc Hall].
    simpl. rewrite Hc.
    rewrite (IH (acc ++ [c]) rest r Hall Hrest); [reflexivity|].
    now rewrite <- app_assoc.
Qed.

Lemma greedy_inv R p (k : str -> str -> option R) s :
  forall acc r,
    greedy p k acc s = Some r ->
    exists run rest,
      s = run ++ rest /\ forallb p run = true
      /\ k (acc ++ run) rest = Some r.
Proof.
  induction s as [|c s IH]; intros acc r H; simpl in H.
  - exists [], []. simpl. rewrite app_nil_r. now repeat split.
  - destruct (p c) eqn:Hc.
    + destruct (greedy p k (acc ++ [c]) s) as [r'|] eqn:Hg.
      * injection H as ->.
        destruct (IH _ _ Hg) as (run & rest & -> & Hall & Hk).
        exists (c :: run), rest. simpl. rewrite Hc, Hall.
        rewrite <- app_assoc in Hk. now repeat split.
      * exists [], (c :: s). simpl. rewrite app_nil_r. now repeat split.
    + exists [], (c :: s). simpl. rewrite app_nil_r. now repeat split.
Qed.

(** A group around [a+] takes a maximal run as its text. *)
Lemma group_plus_intro a es caps tok rest m :
  is_empty tok = false ->
  forallb (accepts a) tok = true ->
  starts_without (accepts a) rest ->
  match_elems es (caps ++ [tok]) rest = Some m ->
  match_elems (Group [Piece a OneOrMore] :: es) caps (tok ++ rest) = Some m.
Proof.
  intros Hne Hall Hrest Hk. destruct tok as [|c tok]; [discriminate|].
  simpl in Hall. apply andb_true_iff in Hall as [Hc Hall].
  simpl. rewrite Hc. apply greedy_longest; auto.
Qed.

Lemma group_plus_inv a es caps s m :
  match_elems (Group [Piece a OneOrMore] :: es) caps s = Some m ->
  exists tok rest,
    s = tok ++ rest /\ is_empty tok = false
    /\ forallb (accepts a) tok = true
    /\ match_elems es (caps ++ [tok]) rest = Some m.
Proof.
  simpl. destruct s as [|c s]; [discriminate|].
  destruct (accepts a c) eqn:Hc; [|discriminate].
  intros H. apply greedy_inv in H as (run & rest & -> & Hall & Hk).
  exists (c :: run), rest. simpl. rewrite Hc, Hall. now repeat split.
Qed.

Lemma star_intro a es caps run rest m :
  forallb (accepts a) run = true ->
  starts_without (accepts a) rest ->
  match_elems es caps rest = Some m ->
  match_elems (Plain (Piece a ZeroOrMore) :: es) caps (run ++ rest) = Some m.
Proof.
  intros Hall Hrest Hk. simpl. apply greedy_longest; auto.
Qed.

Lemma star_inv a es caps s m :
  match_elems (Plain (Piece a ZeroOrMore) :: es) caps s = Some m ->
  exists run rest,
    s = run ++ rest /\ forallb (accepts a) run = true
    /\ match_elems es caps rest = Some m.
Proof.
  simpl. intros H. apply greedy_inv in H as (run & rest & -> & Hall & Hk).
  now exists run, rest.
Qed.

Lemma lits_match l es caps s :
  match_elems (lits l ++ es) caps (l ++ s) = match_elems es caps s.
Proof.
  induction l as [|c l IH]; [reflexivity|].
  simpl. now rewrite N.eqb_refl.
Qed.

Lemma lits_inv l es caps :
  forall s m,
    match_elems (lits l ++ es) caps s = Some m ->
    exists s', s = l ++ s' /\ match_elems es caps s' = Some m.
Proof.
  induction l as [|c l IH]; intros s m H.
  - now exists s.
  - simpl in H. destruct s as [|d s]; [discriminate|].
    destruct (N.eqb_spec d c) as [->|_]; [|discriminate].
    apply IH in H as (s' & -> & H). now exists s'.
Qed.
End MatcherFacts.

(** * Facts about the generators *)

Section GeneratorFacts.
Context {U : UnicodeData}.

Lemma word_token_spec s :
  word_token s = true <-> is_empty s = false /\ forallb is_word s = true.
Proof.
  unfold word_token. rewrite andb_true_iff, negb_true_iff. tauto.
Qed.

Lemma word_token_head s rest :
  word_token s = true -> starts_without is_space (s ++ rest).
Proof.
  intros H. apply word_token_spec in H as [Hne Hall].
  destruct s as [|c s]; [discriminate|]. simpl in *.
  apply andb_true_iff in Hall as [Hc _]. now apply is_word_not_space.
Qed.

(** The argument part of the pattern on a well-formed argument text. *)
Lemma arguments_match caps name ws addr rest :
  word_token name = true ->
  forallb is_space ws = true ->
  word_token addr = true ->
  match_elems macro_arguments caps
    (name ++ py "," ++ ws ++ addr ++ py ");" ++ rest)
  = Some ((caps ++ [name]) ++ [addr]).
Proof.
  intros Hn Hws Ha.
  apply word_token_spec in Hn as [Hn1 Hn2].
  pose proof (word_token_head addr (py ");" ++ rest) Ha) as Hhead.
  apply word_token_spec in Ha as [Ha1 Ha2].
  unfold macro_arguments. cbn [app].
  apply group_plus_intro; [assumption | exact Hn2 | reflexivity |].
  rewrite lits_match.
  apply star_intro; [exact Hws | exact Hhead | ].
  apply group_plus_intro; [assumption | exact Ha2 | reflexivity |].
  rewrite <- (app_nil_r (lits (py ");"))). now rewrite lits_match.
Qed.

(** Conversely, whatever the argument part matches is such a text. *)
Lemma arguments_inv caps s m :
  match_elems macro_arguments caps s = Some m ->
  exists name ws addr rest,
    s = name ++ py "," ++ ws ++ addr ++ py ");" ++ rest
    /\ word_token name = true
    /\ forallb is_space ws = true
    /\ word_token addr = true
    /\ m = (caps ++ [name]) ++ [addr].
Proof.
  unfold macro_arguments. cbn [app]. intros H.
  apply group_plus_inv in H as (name & s1 & -> & Hn1 & Hn2 & H).
  apply lits_inv in H as (s2 & -> & H).
  apply star_inv in H as (ws & s3 & -> & Hws & H).
  apply group_plus_inv in H as (addr & s4 & -> & Ha1 & Ha2 & H).
  rewrite <- (app_nil_r (lits (py ");"))) in H.
  apply lits_inv in H as (rest & -> & H). simpl in H. injection H as <-.
  exists name, ws, addr, rest. repeat split.
  - apply word_token_spec. now split.
  - exact Hws.
  - apply word_token_spec. now split.
Qed.

Section OneScript.
Variable macro : str.
Variable template : list (list part).

Local Abbreviation pattern := (lits (macro ++ py "!(") ++ macro_arguments).
Local Abbreviation extract := (Generator.extract_macro_parameters pattern).
Local Abbreviation run := (Generator.main pattern template).

Lemma extract_invocation name ws addr rest :
  word_token name = true ->
  forallb is_space ws = true ->
  word_token addr = true ->
  extract (invocation macro name ws addr rest) = Return (name, addr).
Proof.
  intros Hn Hws Ha.
  unfold Generator.extract_macro_parameters, re_match, invocation.
  rewrite (app_assoc macro), lits_match.
  now rewrite (arguments_match [] name ws addr rest Hn Hws Ha).
Qed.

Lemma extract_inv line name addr :
  extract line = Return (name, addr) ->
  exists ws rest,
    line = invocation macro name ws addr rest
    /\ word_token name = true
    /\ forallb is_space ws = true
    /\ word_token addr = true.
Proof.
  unfold Generator.extract_macro_parameters, re_match.
  destruct (match_elems _ _ line) as [m|] eqn:H; [|discriminate].
  apply lits_inv in H as (s & -> & H).
  apply arguments_inv in H as (n & ws & a & rest & -> & Hn & Hws & Ha & ->).
  simpl. intros E. injection E as <- <-.
  exists ws, rest. unfold invocation. rewrite <- app_assoc.
  now repeat split.
Qed.

Lemma extract_total line :
  (exists name addr, extract line = Return (name, addr))
  \/ extract line = Raise malformed.
Proof.
  unfold Generator.extract_macro_parameters.
  destruct (re_match pattern line); [left; eauto | now right].
Qed.

Lemma extract_malformed line :
  ~ well_formed macro line -> extract line = Raise malformed.
Proof.
  intros Hbad. destruct (extract_total line) as [(n & a & H)|H]; [|exact H].
  exfalso. apply Hbad.
  apply extract_inv in H as (ws & rest & H). now exists n, ws, a, rest.
Qed.

Lemma main_step line file stdout name addr :
  is_empty line = false ->
  extract line = Return (name, addr) ->
  run (line :: file) stdout
  = run file (print stdout (fstring template name addr)).
Proof.
  intros Hne H. cbn [Generator.main]. now rewrite Hne, H.
Qed.

Lemma main_raise line file stdout e :
  is_empty line = false ->
  extract line = Raise e ->
  run (line :: file) stdout = (stdout, Raise e).
Proof.
  intros Hne H. cbn [Generator.main]. now rewrite Hne, H.
Qed.

(** A run only appends to the standard output, and what it appends and
    how it ends depend on the file alone. *)
Lemma main_appends file :
  forall stdout,
    run file stdout = (stdout ++ fst (run file []), snd (run file [])).
Proof.
  induction file as [|line file IH]; intros stdout.
  - simpl. now rewrite app_nil_r.
  - cbn [Generator.main]. destruct (is_empty line).
    + simpl. now rewrite app_nil_r.
    + destruct (Generator.extract_macro_parameters pattern line)
        as [[n a]|e].
      * rewrite IH. rewrite (IH (print [] _)). simpl.
        unfold print. now rewrite <- !app_assoc.
      * simpl. now rewrite app_nil_r.
Qed.
End OneScript.

Lemma extract_of_eq v :
  extract_of v
  = Generator.extract_macro_parameters
      (lits (macro_of v ++ py "!(") ++ macro_arguments).
Proof. now destruct v. Qed.

Lemma main_of_eq v :
  main_of v
  = Generator.main (lits (macro_of v ++ py "!(") ++ macro_arguments)
      (template_of v).
Proof. now destruct v. Qed.

Lemma invocation_not_empty v name ws addr rest :
  is_empty (invocation (macro_of v) name ws addr rest) = false.
Proof. now destruct v. Qed.

(** One well-formed line: its block is printed and the run goes on. *)
Lemma main_invocation v name ws addr rest file stdout :
  word_token name = true ->
  forallb is_space ws = true ->
  word_token addr = true ->
  main_of v (invocation (macro_of v) name ws addr rest :: file) stdout
  = main_of v file (print stdout (fstring (template_of v) name addr)).
Proof.
  intros Hn Hws Ha. rewrite main_of_eq.
  apply main_step; [apply invocation_not_empty|].
  now apply extract_invocation.
Qed.
End GeneratorFacts.

(** * The generators on their input lines *)

(** C1. A line [MACRO!(NAME,<ws>ADDR);<rest>] whose [NAME] and [ADDR] are
    word-character tokens is parsed to exactly [(NAME, ADDR)], unchanged,
    and the generator prints for it one block: the variant's template with
    every register-name field replaced by [NAME] and every address field by
    [ADDR], then goes on with the rest of the file. *)
Theorem generated_block_instantiates_template
  {U : UnicodeData} (v : variant) (name ws addr rest : str)
  (file : list str) (stdout : str) :
  word_token name = true ->
  forallb is_space ws = true ->
  word_token addr = true ->
  let line := invocation (macro_of v) name ws addr rest in
  let field p :=
    match p with
    | Txt s => py s
    | Var_reg_name => name
    | Var_reg_addr => addr
    end in
  let block :=
    flat_map (fun l => flat_map field l ++ [newline]) (template_of v) in
  extract_of v line = Return (name, addr)
  /\ main_of v (line :: file) stdout
     = main_of v file (stdout ++ block ++ [newline])
  /\ main_of v [line] [] = (block ++ [newline], Return tt).
Proof.
  intros Hn Hws Ha line field block.
  assert (E : extract_of v line = Return (name, addr)).
  { rewrite extract_of_eq. now apply extract_invocation. }
  assert (S : forall f out,
             main_of v (line :: f) out
             = main_of v f (out ++ block ++ [newline])).
  { intros f out. now apply main_invocation. }
  split; [exact E|]. split; [apply S|].
  rewrite S. now destruct v.
Qed.

Lemma generated_block_instantiates_template_witness :
  @extract_of Latin1 VariantA (py "X_REG0!(GpioPinA, 0x0300);" ++ [newline])
  = Return (py "GpioPinA", py "0x0300").
Proof.
  exact (proj1 (@generated_block_instantiates_template Latin1 VariantA
                  (py "GpioPinA") (py " ") (py "0x0300") [newline] [] []
                  eq_refl eq_refl eq_refl)).
Defined.

(** C9. The pattern is tried at the start of the line and nothing is asked
    of what follows its last character: a well-formed invocation followed
    by any text at all is parsed, and to the same pair as without it. *)
Theorem trailing_text_is_ignored
  {U : UnicodeData} (v : variant) (name ws addr suffix : str) :
  word_token name = true ->
  forallb is_space ws = true ->
  word_token addr = true ->
  extract_of v (invocation (macro_of v) name ws addr suffix)
  = Return (name, addr)
  /\ extract_of v (invocation (macro_of v) name ws addr suffix)
     = extract_of v (invocation (macro_of v) name ws addr []).
Proof.
  intros Hn Hws Ha. rewrite extract_of_eq.
  rewrite !extract_invocation by assumption. now split.
Qed.

Lemma trailing_text_is_ignored_witness :
  @extract_of Latin1 VariantB (py "X_REG1!(GpioDelay3, 0x40); // and more;")
  = Return (py "GpioDelay3", py "0x40").
Proof.
  exact (proj1 (@trailing_text_is_ignored Latin1 VariantB
                  (py "GpioDelay3") (py " ") (py "0x40")
                  (py " // and more;") eq_refl eq_refl eq_refl)).
Defined.

Lemma latin1_isalnum_split (c : char) :
  latin1_isalnum c
  = latin1_isalpha c || latin1_isdigit c || between 188 190 c.
Proof.
  unfold latin1_isalnum, latin1_isalpha, latin1_isdigit. cbn [existsb].
  destruct (between 188 190 c) eqn:B.
  - apply between_spec in B.
    assert (H : c = 188%N \/ c = 189%N \/ c = 190%N) by lia.
    destruct H as [->|[->| ->]]; reflexivity.
  - assert (H : c <> 188%N /\ c <> 189%N /\ c <> 190%N).
    { repeat split; intros ->; discriminate B. }
    destruct H as (H1 & H2 & H3).
    apply N.eqb_neq in H1, H2, H3. rewrite H1, H2, H3.
    destruct (N.eqb c 170), (N.eqb c 178), (N.eqb c 179), (N.eqb c 181),
      (N.eqb c 185), (N.eqb c 186), (between 192 214 c),
      (between 216 246 c), (between 248 255 c); reflexivity.
Qed.

(** C10, as stated, fails: on the line [X_REG0!(<micro sign><one quarter>, 0x0);]
    the extraction returns a name holding the fraction one quarter (code
    point 188), which is neither a letter, nor a digit, nor the
    underscore. *)
Lemma extracted_token_holds_a_fraction :
  ~ (forall name addr,
       @extract_of Latin1 VariantA
         (py "X_REG0!(" ++ [181; 188]%N ++ py ", 0x0);")
       = Return (name, addr) ->
       forall c, In c (name ++ addr) ->
                 letter_or_digit c = true \/ c = underscore).
Proof.
  intros H.
  destruct (H [181; 188]%N (py "0x0") eq_refl 188%N
              (or_intror (or_introl eq_refl))) as [E|E];
    vm_compute in E; discriminate E.
Qed.

(** C10, as the code has it.  Whenever the extraction returns, both tokens
    are non-empty runs of [\w] characters: each character below code point
    128 is an ASCII letter, an ASCII digit or the underscore, each character
    from 128 on is one the Unicode tables class as alphanumeric (letters and
    digits, and numeric characters that are neither), and none is white
    space. *)
Theorem extracted_tokens_are_word_tokens
  {U : UnicodeData} (v : variant) (line name addr : str) :
  extract_of v line = Return (name, addr) ->
  name <> [] /\ addr <> []
  /\ forall c, In c (name ++ addr) ->
       is_space c = false
       /\ ((c < 128)%N
             /\ (ascii_isletter c = true \/ ascii_isdigit c = true
                 \/ c = underscore)
           \/ (128 <= c)%N /\ uni_isalnum c = true).
Proof.
  rewrite extract_of_eq. intros H.
  apply extract_inv in H as (ws & rest & _ & Hn & _ & Ha).
  apply word_token_spec in Hn as [Hn1 Hn2].
  apply word_token_spec in Ha as [Ha1 Ha2].
  rewrite forallb_forall in Hn2, Ha2.
  split; [intros ->; discriminate|]. split; [intros ->; discriminate|].
  intros c Hc.
  assert (W : is_word c = true).
  { apply in_app_or in Hc as [Hc|Hc]; [now apply Hn2 | now apply Ha2]. }
  split; [now apply is_word_not_space|].
  apply is_word_spec in W. unfold isalnum in W.
  destruct (N.ltb_spec c 128) as [Hlt|Hge].
  - left. split; [exact Hlt|].
    destruct W as [W| ->]; [|now right; right].
    unfold ascii_isalnum in W. unfold ascii_isletter, ascii_isdigit.
    rewrite !orb_true_iff in W. rewrite orb_true_iff. tauto.
  - right. split; [exact Hge|].
    destruct W as [W| ->]; [exact W|]. unfold underscore in Hge. lia.
Qed.

Lemma extracted_tokens_are_word_tokens_witness :
  py "GpioPinA" <> [] /\ py "0x0300" <> []
  /\ @is_space Latin1 71%N = false
  /\ ((71 < 128)%N
        /\ (ascii_isletter 71%N = true \/ ascii_isdigit 71%N = true
            \/ 71%N = underscore)
      \/ (128 <= 71)%N /\ @uni_isalnum Latin1 71%N = true).
Proof.
  destruct (@extracted_tokens_are_word_tokens Latin1 VariantA
              (py "X_REG0!(GpioPinA, 0x0300);") (py "GpioPinA") (py "0x0300")
              eq_refl) as (Hn & Ha & W).
  split; [exact Hn|]. split; [exact Ha|].
  apply W. simpl. now left.
Defined.

Lemma raised_is_not_well_formed {U : UnicodeData} (v : variant) (line : str) :
  extract_of v line = Raise malformed -> ~ well_formed (macro_of v) line.
Proof.
  intros H (name & ws & addr & rest & -> & Hn & Hws & Ha).
  rewrite extract_of_eq in H.
  rewrite extract_invocation in H by assumption. discriminate.
Qed.

(** C4. A line the pattern does not describe makes the extraction raise the
    malformed-input error; the generator, which does not catch it, stops
    there with the output as it was before the line: no block is printed
    for it.  (The empty string is what [readline] returns at the end of the
    file; it is never a line.) *)
Theorem malformed_line_raises
  {U : UnicodeData} (v : variant) (line : str) :
  ~ well_formed (macro_of v) line ->
  extract_of v line = Raise malformed
  /\ (is_empty line = false ->
      forall file stdout,
        main_of v (line :: file) stdout = (stdout, Raise malformed)).
Proof.
  intros Hbad.
  assert (E : extract_of v line = Raise malformed).
  { rewrite extract_of_eq. now apply extract_malformed. }
  split; [exact E|]. intros Hne file stdout.
  rewrite main_of_eq. apply main_raise; [exact Hne|].
  rewrite <- extract_of_eq. exact E.
Qed.

Lemma malformed_line_raises_witness :
  @extract_of Latin1 VariantA (py "X_REG0!(GpioPinA 0x0300)")
  = Raise malformed
  /\ @main_of Latin1 VariantA
       [py "X_REG0!(GpioPinA 0x0300)"; py "X_REG0!(GpioPinB, 0x0304);"] []
     = ([], Raise malformed).
Proof.
  destruct (@malformed_line_raises Latin1 VariantA
              (py "X_REG0!(GpioPinA 0x0300)")
              (@raised_is_not_well_formed Latin1 VariantA
                 (py "X_REG0!(GpioPinA 0x0300)") eq_refl)) as [E M].
  split; [exact E | exact (M eq_refl _ _)].
Defined.

(** * The two concrete scenarios *)

(** C5. For the line [X_REG0!(GpioPinA, 0x0300);] (whatever ends the line)
    variant A prints one block; the block declares the bit-flag type
    [GpioPinA] with exactly the twelve constants [PULL_MASK], [DRIVE_MASK],
    [FUNC_MASK], [FUNC_BIT0..2], [DRIVE_BIT0..3], [PULL_BIT0..1] and their
    fixed values ([PULL_BIT0] is [1 << 8]), and binds it to the register
    address [0x0300]. *)
Theorem xreg0_pin_block {U : UnicodeData} (rest : str) :
  let line := py "X_REG0!(GpioPinA, 0x0300);" ++ rest in
  let out := fst (XReg0.main [line] []) in
  let constants :=
    [ (py "PULL_MASK", py "genmask!(9, 8)");
      (py "DRIVE_MASK", py "genmask!(7, 4)");
      (py "FUNC_MASK", py "genmask!(2, 0)");
      (py "FUNC_BIT0", py "1 << 0");
      (py "FUNC_BIT1", py "1 << 1");
      (py "FUNC_BIT2", py "1 << 2");
      (py "DRIVE_BIT0", py "1 << 4");
      (py "DRIVE_BIT1", py "1 << 5");
      (py "DRIVE_BIT2", py "1 << 6");
      (py "DRIVE_BIT3", py "1 << 7");
      (py "PULL_BIT0", py "1 << 8");
      (py "PULL_BIT1", py "1 << 9") ] in
  XReg0.main [line] []
  = (XReg0.generate_code (py "GpioPinA") (py "0x0300") ++ [newline],
     Return tt)
  /\ declared_flags out = Some (py "GpioPinA", constants)
  /\ List.length constants = 12
  /\ flagreg_address (py "GpioPinA") (splitlines out) = Some (py "0x0300")
  /\ const_values constants
     = Some [ (py "PULL_MASK", 0x300%Z);
              (py "DRIVE_MASK", 0xf0%Z);
              (py "FUNC_MASK", 0x7%Z);
              (py "FUNC_BIT0", Z.shiftl 1 0);
              (py "FUNC_BIT1", Z.shiftl 1 1);
              (py "FUNC_BIT2", Z.shiftl 1 2);
              (py "DRIVE_BIT0", Z.shiftl 1 4);
              (py "DRIVE_BIT1", Z.shiftl 1 5);
              (py "DRIVE_BIT2", Z.shiftl 1 6);
              (py "DRIVE_BIT3", Z.shiftl 1 7);
              (py "PULL_BIT0", Z.shiftl 1 8);
              (py "PULL_BIT1", Z.shiftl 1 9) ].
Proof.
  intros line out constants.
  assert (E : XReg0.main [line] []
              = (XReg0.generate_code (py "GpioPinA") (py "0x0300")
                 ++ [newline], Return tt)).
  { exact (main_invocation VariantA (py "GpioPinA") (py " ") (py "0x0300")
             rest [] [] eq_refl eq_refl eq_refl). }
  subst out. rewrite E. repeat split.
Qed.

(** C3, as the code has it.  For the line [X_REG1!(GpioDelay3, 0x40);]
    variant B prints one block declaring the bit-flag type [GpioDelay3],
    bound to the address [0x40], with eighteen constants: for the
    output-delay and for the input-delay group an enable bit, the mask of
    the three-bit delicate subfield and its three bits, the mask of the
    three-bit rough subfield and its three bits.  Together they span the
    bit positions 0 to 14. *)
Theorem xreg1_delay_block {U : UnicodeData} (rest : str) :
  let line := py "X_REG1!(GpioDelay3, 0x40);" ++ rest in
  let out := fst (XReg1.main [line] []) in
  let bit (k : N) := Z.shiftl 1 (Z.of_N k) in
  let group (g : string) (base : N) :=
    [ (py g ++ py "_DELAY_EN", bit base);
      (py g ++ py "_DELAY_DELICATE_MASK", genmask (base + 3)%N (base + 1)%N);
      (py g ++ py "_DELAY_DELICATE_BIT0", bit (base + 1)%N);
      (py g ++ py "_DELAY_DELICATE_BIT1", bit (base + 2)%N);
      (py g ++ py "_DELAY_DELICATE_BIT2", bit (base + 3)%N);
      (py g ++ py "_DELAY_ROUGH_MASK", genmask (base + 6)%N (base + 4)%N);
      (py g ++ py "_DELAY_ROUGH_BIT0", bit (base + 4)%N);
      (py g ++ py "_DELAY_ROUGH_BIT1", bit (base + 5)%N);
      (py g ++ py "_DELAY_ROUGH_BIT2", bit (base + 6)%N) ] in
  XReg1.main [line] []
  = (XReg1.generate_code (py "GpioDelay3") (py "0x40") ++ [newline],
     Return tt)
  /\ flagreg_address (py "GpioDelay3") (splitlines out) = Some (py "0x40")
  /\ exists constants values,
       declared_flags out = Some (py "GpioDelay3", constants)
       /\ List.length constants = 18
       /\ const_values constants = Some values
       /\ values = group "OUT"%string 8%N ++ group "IN"%string 0%N
       /\ Z.testbit (or_all (map snd values)) 0 = true
       /\ Z.log2 (or_all (map snd values)) = 14%Z.
Proof.
  intros line out bit group.
  assert (E : XReg1.main [line] []
              = (XReg1.generate_code (py "GpioDelay3") (py "0x40")
                 ++ [newline], Return tt)).
  { exact (main_invocation VariantB (py "GpioDelay3") (py " ") (py "0x40")
             rest [] [] eq_refl eq_refl eq_refl). }
  subst out. rewrite E. split; [reflexivity|]. split; [reflexivity|].
  eexists. eexists. split; [vm_compute; reflexivity|].
  repeat split.
Qed.

(** C3, as stated, fails: the block has eighteen constants, not sixteen. *)
Lemma xreg1_block_has_not_16_constants :
  ~ (exists name constants,
        declared_flags
          (fst (@XReg1.main Latin1 [py "X_REG1!(GpioDelay3, 0x40);"] []))
        = Some (name, constants)
        /\ List.length constants = 16).
Proof.
  intros (name & constants & H & L).
  vm_compute in H. injection H as _ <-. discriminate L.
Qed.

(** * The mask calculator *)

Section Bits.
Local Open Scope Z_scope.

(** A number below [2 ^ n] has its set bits below position [n]. *)
Lemma testbit_range m n i :
  0 <= m < 2 ^ n -> Z.testbit m i = true -> 0 <= i < n.
Proof.
  intros [Hm0 Hm] H. split.
  - destruct (Z.ltb_spec i 0) as [Hi|Hi]; [|exact Hi].
    rewrite Z.testbit_neg_r in H by exact Hi. discriminate.
  - destruct (Z.ltb_spec i n) as [Hi|Hi]; [exact Hi|exfalso].
    destruct (Z.eq_dec m 0) as [->|Hne].
    + rewrite Z.bits_0 in H. discriminate.
    + assert (Hn : 0 <= n).
      { destruct (Z.ltb_spec n 0) as [Hneg|]; [|assumption].
        rewrite Z.pow_neg_r in Hm by exact Hneg. lia. }
      rewrite Z.bits_above_log2 in H; [discriminate | lia |].
      apply Z.lt_le_trans with n; [|exact Hi].
      apply Z.log2_lt_pow2; lia.
Qed.

(** The set bits of a mask, read off position by position. *)
Lemma set_bits_below m (n : nat) (l : list Z) :
  0 <= m < 2 ^ Z.of_nat n ->
  forallb (fun k => Bool.eqb (Z.testbit m (Z.of_nat k))
                             (existsb (Z.eqb (Z.of_nat k)) l))
          (seq 0 n) = true ->
  forallb (fun j => (0 <=? j) && (j <? Z.of_nat n)) l = true ->
  forall i, Z.testbit m i = true <-> In i l.
Proof.
  intros Hm Hall Hl i.
  rewrite forallb_forall in Hall, Hl. split.
  - intros H. pose proof (testbit_range m (Z.of_nat n) i Hm H) as Hi.
    specialize (Hall (Z.to_nat i)).
    rewrite in_seq, Z2Nat.id in Hall by lia.
    assert (Hk : (0 <= Z.to_nat i < 0 + n)%nat) by lia.
    apply Hall in Hk. rewrite H in Hk.
    apply Bool.eqb_prop in Hk. symmetry in Hk.
    apply existsb_exists in Hk as (j & Hj & E).
    apply Z.eqb_eq in E. now subst.
  - intros H. pose proof (Hl i H) as Hi.
    apply andb_true_iff in Hi as [Hi0 Hin].
    apply Z.leb_le in Hi0. apply Z.ltb_lt in Hin.
    specialize (Hall (Z.to_nat i)).
    rewrite in_seq, Z2Nat.id in Hall by lia.
    assert (Hk : (0 <= Z.to_nat i < 0 + n)%nat) by lia.
    apply Hall in Hk.
    assert (Ex : existsb (Z.eqb i) l = true).
    { apply existsb_exists. exists i. split; [exact H|apply Z.eqb_refl]. }
    rewrite Ex in Hk. now apply Bool.eqb_prop in Hk.
Qed.
End Bits.

(** C2, as stated, fails: the command mask is not [0x1446]. *)
Lemma cmd_mask_is_not_0x1446 : Temp.FSDIF_INTS_CMD_MASK <> 0x1446%Z.
Proof. intros H. vm_compute in H. discriminate H. Qed.

(** C2, as the code has it.  The command-interrupt mask is the bitwise OR of
    the six bit constants at positions 1, 2, 6, 8, 10 and 12: exactly these
    bits are set in it, it equals [0x1546], and [output_int_mask] prints
    it so. *)
Theorem cmd_mask_value :
  Temp.FSDIF_INTS_CMD_MASK
  = or_all [ Temp.FSDIF_INT_RE_BIT; Temp.FSDIF_INT_CMD_BIT;
             Temp.FSDIF_INT_RCRC_BIT; Temp.FSDIF_INT_RTO_BIT;
             Temp.FSDIF_INT_HTO_BIT; Temp.FSDIF_INT_HLE_BIT ]
  /\ [ Temp.FSDIF_INT_RE_BIT; Temp.FSDIF_INT_CMD_BIT;
       Temp.FSDIF_INT_RCRC_BIT; Temp.FSDIF_INT_RTO_BIT;
       Temp.FSDIF_INT_HTO_BIT; Temp.FSDIF_INT_HLE_BIT ]
     = map (Z.shiftl 1) [1; 2; 6; 8; 10; 12]%Z
  /\ (forall i, Z.testbit Temp.FSDIF_INTS_CMD_MASK i = true
                <-> In i [1; 2; 6; 8; 10; 12]%Z)
  /\ Temp.FSDIF_INTS_CMD_MASK = 0x1546%Z
  /\ nth_error (splitlines (Temp.output_int_mask [])) 0
     = Some (py "FSDIF_INTS_CMD_MASK: 0x1546").
Proof.
  split; [reflexivity|]. split; [reflexivity|]. split; [|now split].
  apply (set_bits_below Temp.FSDIF_INTS_CMD_MASK 13).
  - vm_compute. split; [discriminate | reflexivity].
  - reflexivity.
  - reflexivity.
Qed.

(** C6. The data-interrupt mask is the OR of the bit constants at positions
    3, 7, 9 and 13 and equals [0x2288]; the DMA-controller interrupt-enable
    mask is the OR of the bit constants at positions 2, 4, 8 and 9 and
    equals [0x314]. *)
Theorem data_and_dmac_mask_values :
  (Temp.FSDIF_INTS_DATA_MASK
   = or_all [ Temp.FSDIF_INT_DTO_BIT; Temp.FSDIF_INT_DCRC_BIT;
              Temp.FSDIF_INT_DRTO_BIT; Temp.FSDIF_INT_SBE_BCI_BIT ]
   /\ [ Temp.FSDIF_INT_DTO_BIT; Temp.FSDIF_INT_DCRC_BIT;
        Temp.FSDIF_INT_DRTO_BIT; Temp.FSDIF_INT_SBE_BCI_BIT ]
      = map (Z.shiftl 1) [3; 7; 9; 13]%Z
   /\ (forall i, Z.testbit Temp.FSDIF_INTS_DATA_MASK i = true
                 <-> In i [3; 7; 9; 13]%Z)
   /\ Temp.FSDIF_INTS_DATA_MASK = 0x2288%Z)
  /\
  (Temp.FSDIF_DMAC_INTS_MASK
   = or_all [ Temp.FSDIF_DMAC_INT_ENA_FBE; Temp.FSDIF_DMAC_INT_ENA_DU;
              Temp.FSDIF_DMAC_INT_ENA_NIS; Temp.FSDIF_DMAC_INT_ENA_AIS ]
   /\ [ Temp.FSDIF_DMAC_INT_ENA_FBE; Temp.FSDIF_DMAC_INT_ENA_DU;
        Temp.FSDIF_DMAC_INT_ENA_NIS; Temp.FSDIF_DMAC_INT_ENA_AIS ]
      = map (Z.shiftl 1) [2; 4; 8; 9]%Z
   /\ (forall i, Z.testbit Temp.FSDIF_DMAC_INTS_MASK i = true
                 <-> In i [2; 4; 8; 9]%Z)
   /\ Temp.FSDIF_DMAC_INTS_MASK = 0x314%Z).
Proof.
  split.
  - split; [reflexivity|]. split; [reflexivity|]. split; [|reflexivity].
    apply (set_bits_below Temp.FSDIF_INTS_DATA_MASK 14).
    + vm_compute. split; [discriminate | reflexivity].
    + reflexivity.
    + reflexivity.
  - split; [reflexivity|]. split; [reflexivity|]. split; [|reflexivity].
    apply (set_bits_below Temp.FSDIF_DMAC_INTS_MASK 10).
    + vm_compute. split; [discriminate | reflexivity].
    + reflexivity.
    + reflexivity.
Qed.

(** C7, as stated, fails: run as a program the calculator prints one line,
    not two or more. *)
Lemma calculator_prints_fewer_than_two_lines :
  ~ (2 <= List.length (splitlines (Temp.main []))
     /\ forallb mask_line (splitlines (Temp.main [])) = true).
Proof. intros [H _]. vm_compute in H. lia. Qed.

(** C7, as the code has it.  Run as a program the calculator calls
    [dmac_int_ena] alone and prints the single line
    [FSDIF_DMAC_INTS_MASK: 0x314]; that line, and the two lines
    [output_int_mask] prints when it is called, have the form
    [<LABEL>: <hex-value>], the value with a [0x] prefix, lower-case digits
    and no padding. *)
Theorem calculator_output_format :
  (forall stdout,
     Temp.main stdout = stdout ++ py "FSDIF_DMAC_INTS_MASK: 0x314" ++ [newline])
  /\ splitlines (Temp.main []) = [py "FSDIF_DMAC_INTS_MASK: 0x314"]
  /\ forallb mask_line (splitlines (Temp.main [])) = true
  /\ splitlines (Temp.output_int_mask [])
     = [py "FSDIF_INTS_CMD_MASK: 0x1546"; py "FSDIF_INTS_DATA_MASK: 0x2288"]
  /\ forallb mask_line (splitlines (Temp.output_int_mask [])) = true.
Proof. repeat split. Qed.

(** * Further facts about the extraction *)

Section TextFacts.

Lemma strip_prefix_app p s : strip_prefix p (p ++ s) = Some s.
Proof.
  induction p as [|c p IH]; [reflexivity|]. simpl. now rewrite N.eqb_refl.
Qed.

Lemma strip_suffix_app p s : strip_suffix p (s ++ p) = Some s.
Proof.
  unfold strip_suffix. rewrite rev_app_distr, strip_prefix_app. simpl.
  now rewrite rev_involutive.
Qed.

Lemma str_eqb_refl s : str_eqb s s = true.
Proof.
  induction s as [|c s IH]; [reflexivity|]. simpl. now rewrite N.eqb_refl.
Qed.

(** Two ways of cutting a text after a maximal run of [p] agree. *)
Lemma span_unique p l1 :
  forall l2 s1 s2,
    forallb p l1 = true -> forallb p l2 = true ->
    starts_without p s1 -> starts_without p s2 ->
    l1 ++ s1 = l2 ++ s2 -> l1 = l2 /\ s1 = s2.
Proof.
  induction l1 as [|c l1 IH]; intros l2 s1 s2 H1 H2 W1 W2 E.
  - destruct l2 as [|d l2]; [now split|]. exfalso.
    simpl in *. subst s1. simpl in W1.
    apply andb_true_iff in H2 as [H2 _]. congruence.
  - destruct l2 as [|d l2].
    + exfalso. simpl in *. subst s2. simpl in W2.
      apply andb_true_iff in H1 as [H1 _]. congruence.
    + simpl in *. injection E as -> E.
      apply andb_true_iff in H1 as [_ H1].
      apply andb_true_iff in H2 as [_ H2].
      destruct (IH l2 s1 s2 H1 H2 W1 W2 E) as [-> ->]. now split.
Qed.
End TextFacts.

Section ExtractionFacts.
Context {U : UnicodeData}.

Lemma extract_of_total v line :
  (exists name addr, extract_of v line = Return (name, addr))
  \/ extract_of v line = Raise malformed.
Proof. rewrite extract_of_eq. apply extract_total. Qed.

Lemma extract_of_inv v line name addr :
  extract_of v line = Return (name, addr) ->
  exists ws rest,
    line = invocation (macro_of v) name ws addr rest
    /\ word_token name = true
    /\ forallb is_space ws = true
    /\ word_token addr = true.
Proof. rewrite extract_of_eq. apply extract_inv. Qed.

Lemma extract_of_invocation v name ws addr rest :
  word_token name = true ->
  forallb is_space ws = true ->
  word_token addr = true ->
  extract_of v (invocation (macro_of v) name ws addr rest)
  = Return (name, addr).
Proof. rewrite extract_of_eq. apply extract_invocation. Qed.

Lemma invocation_opening macro name ws addr rest :
  invocation macro name ws addr rest
  = (macro ++ py "!(") ++ name ++ py "," ++ ws ++ addr ++ py ");" ++ rest.
Proof. unfold invocation. now rewrite <- app_assoc. Qed.

Lemma main_of_raise v line file stdout e :
  is_empty line = false ->
  extract_of v line = Raise e ->
  main_of v (line :: file) stdout = (stdout, Raise e).
Proof.
  intros Hne H. rewrite main_of_eq. apply main_raise; [exact Hne|].
  now rewrite <- extract_of_eq.
Qed.

Lemma main_of_step v line file stdout name addr :
  extract_of v line = Return (name, addr) ->
  main_of v (line :: file) stdout
  = main_of v file (print stdout (generate_of v name addr)).
Proof.
  intros H.
  destruct (extract_of_inv v line name addr H) as (ws & rest & -> & Hn & Hws & Ha).
  rewrite main_invocation by assumption. now destruct v.
Qed.
End ExtractionFacts.

(** X1. The extraction returns [(name, addr)] exactly on the lines that
    open with the macro name and [!(], then [name], a comma, white space,
    [addr] and [);], both tokens being non-empty runs of word characters;
    what follows is free. *)
Theorem extraction_characterised
  {U : UnicodeData} (v : variant) (line name addr : str) :
  extract_of v line = Return (name, addr)
  <-> exists ws rest,
        line = invocation (macro_of v) name ws addr rest
        /\ word_token name = true
        /\ forallb is_space ws = true
        /\ word_token addr = true.
Proof.
  split.
  - apply extract_of_inv.
  - intros (ws & rest & -> & Hn & Hws & Ha).
    now apply extract_of_invocation.
Qed.

(** X2. The two generators accept disjoint sets of lines: a line one of
    them parses makes the other raise. *)
Theorem variants_exclusive
  {U : UnicodeData} (v v' : variant) (line : str) (p : str * str) :
  v <> v' ->
  extract_of v line = Return p ->
  extract_of v' line = Raise malformed.
Proof.
  intros Hv H. destruct p as [n a].
  apply extract_of_inv in H as (ws & rest & E & _).
  destruct (extract_of_total v' line) as [(n' & a' & H')|H']; [|exact H'].
  exfalso. apply extract_of_inv in H' as (ws' & rest' & E' & _).
  rewrite E in E'. destruct v, v'; try (now apply Hv); discriminate E'.
Qed.

Lemma variants_exclusive_witness :
  @extract_of Latin1 VariantB (py "X_REG0!(GpioPinA, 0x0300);")
  = Raise malformed.
Proof.
  apply (@variants_exclusive Latin1 VariantA VariantB
           (py "X_REG0!(GpioPinA, 0x0300);") (py "GpioPinA", py "0x0300")).
  - discriminate.
  - reflexivity.
Defined.

(** X3. The pattern is anchored at the start of the line: a line that does
    not open with the macro name and [!(] (a blank line, an indented or
    commented line, another macro) raises, and the run stops there. *)
Theorem line_must_start_with_macro
  {U : UnicodeData} (v : variant) (line : str) :
  strip_prefix (macro_of v ++ py "!(") line = None ->
  extract_of v line = Raise malformed
  /\ (is_empty line = false ->
      forall file stdout,
        main_of v (line :: file) stdout = (stdout, Raise malformed)).
Proof.
  intros Hp.
  assert (E : extract_of v line = Raise malformed).
  { destruct (extract_of_total v line) as [(n & a & H)|H]; [exfalso|exact H].
    apply extract_of_inv in H as (ws & rest & -> & _).
    rewrite invocation_opening, strip_prefix_app in Hp. discriminate. }
  split; [exact E|]. intros Hne file stdout. now apply main_of_raise.
Qed.

Lemma line_must_start_with_macro_witness :
  @extract_of Latin1 VariantA [newline] = Raise malformed
  /\ @main_of Latin1 VariantA
       [[newline]; py "X_REG0!(GpioPinA, 0x0300);"] []
     = ([], Raise malformed).
Proof.
  destruct (@line_must_start_with_macro Latin1 VariantA [newline] eq_refl)
    as [E M].
  split; [exact E | exact (M eq_refl _ _)].
Defined.

(** X4. After [MACRO!(] the run of word characters must be non-empty and be
    followed at once by a comma: an empty name, white space before the
    comma, a name with any other character in it, or a line that ends
    there, all raise. *)
Theorem name_needs_comma
  {U : UnicodeData} (v : variant) (tok s : str) :
  forallb is_word tok = true ->
  starts_without is_word s ->
  is_empty tok = true \/ strip_prefix (py ",") s = None ->
  extract_of v ((macro_of v ++ py "!(") ++ tok ++ s) = Raise malformed.
Proof.
  intros Htok Hs Hbad.
  destruct (extract_of_total v ((macro_of v ++ py "!(") ++ tok ++ s))
    as [(n & a & H)|H]; [exfalso|exact H].
  apply extract_of_inv in H as (ws & rest & E & Hn & _).
  rewrite invocation_opening in E. apply app_inv_head in E.
  apply word_token_spec in Hn as [Hn1 Hn2].
  assert (Hc : starts_without is_word (py "," ++ ws ++ a ++ py ");" ++ rest))
    by reflexivity.
  destruct (span_unique is_word tok n s _ Htok Hn2 Hs Hc E) as [-> ->].
  destruct Hbad as [He|Hp]; [congruence | discriminate Hp].
Qed.

Lemma name_needs_comma_witness :
  @extract_of Latin1 VariantA (py "X_REG0!(GpioPinA , 0x0300);")
  = Raise malformed.
Proof.
  exact (@name_needs_comma Latin1 VariantA (py "GpioPinA")
           (py " , 0x0300);") eq_refl eq_refl (or_intror eq_refl)).
Defined.

(** X5. After the comma and the white space the run of word characters must
    be non-empty and be followed at once by [);]: an empty address, an
    address with an operator or a dot in it, white space before the
    parenthesis, a missing semicolon, or a line that ends there, all
    raise. *)
Theorem address_needs_closing
  {U : UnicodeData} (v : variant) (name ws tok s : str) :
  word_token name = true ->
  forallb is_space ws = true ->
  forallb is_word tok = true ->
  starts_without is_space (tok ++ s) ->
  starts_without is_word s ->
  is_empty tok = true \/ strip_prefix (py ");") s = None ->
  extract_of v ((macro_of v ++ py "!(") ++ name ++ py "," ++ ws ++ tok ++ s)
  = Raise malformed.
Proof.
  intros Hname Hws Htok Hsp Hs Hbad.
  destruct (extract_of_total v
              ((macro_of v ++ py "!(") ++ name ++ py "," ++ ws ++ tok ++ s))
    as [(n & a & H)|H]; [exfalso|exact H].
  apply extract_of_inv in H as (ws' & rest & E & Hn & Hws' & Ha).
  rewrite invocation_opening in E. apply app_inv_head in E.
  pose proof (word_token_head a (py ");" ++ rest) Ha) as Hhead.
  apply word_token_spec in Hname as [_ Hname].
  apply word_token_spec in Hn as [_ Hn].
  apply word_token_spec in Ha as [Ha1 Ha2].
  assert (Hc : forall t, starts_without is_word (py "," ++ t))
    by reflexivity.
  destruct (span_unique is_word name n _ _ Hname Hn (Hc _) (Hc _) E)
    as [<- E1].
  injection E1 as E1.
  destruct (span_unique is_space ws ws' _ _ Hws Hws' Hsp Hhead E1)
    as [<- E2].
  assert (Hp : starts_without is_word (py ");" ++ rest)) by reflexivity.
  destruct (span_unique is_word tok a s _ Htok Ha2 Hs Hp E2) as [-> ->].
  destruct Hbad as [He|Hd]; [congruence | discriminate Hd].
Qed.

Lemma address_needs_closing_witness :
  @extract_of Latin1 VariantB (py "X_REG1!(GpioDelay3, 0x40)")
  = Raise malformed.
Proof.
  exact (@address_needs_closing Latin1 VariantB (py "GpioDelay3") (py " ")
           (py "0x40") (py ")") eq_refl eq_refl eq_refl eq_refl eq_refl
           (or_intror eq_refl)).
Defined.

(** * Whole runs *)

(** X6. On a file all of whose lines parse, the run prints the block of
    every line, in the order of the lines, after what the standard output
    held, and ends normally. *)
Theorem run_prints_blocks_in_order
  {U : UnicodeData} (v : variant) (file : list str) (stdout : str) :
  forallb (parses v) file = true ->
  main_of v file stdout = (stdout ++ flat_map (block_of v) file, Return tt).
Proof.
  revert stdout. induction file as [|line file IH]; intros stdout Hall.
  - simpl. rewrite app_nil_r. now destruct v.
  - simpl in Hall. apply andb_true_iff in Hall as [Hl Hall].
    unfold parses in Hl. simpl. unfold block_of.
    destruct (extract_of v line) as [[n a]|e] eqn:E; [|discriminate].
    rewrite (main_of_step v line file stdout n a E), (IH _ Hall).
    unfold print. simpl. now rewrite <- !app_assoc.
Qed.

Lemma run_prints_blocks_in_order_witness :
  @main_of Latin1 VariantA
    [py "X_REG0!(GpioPinA, 0x0300);"; py "X_REG0!(GpioPinB, 0x0304);"] []
  = (XReg0.generate_code (py "GpioPinA") (py "0x0300") ++ [newline]
     ++ XReg0.generate_code (py "GpioPinB") (py "0x0304") ++ [newline],
     Return tt).
Proof.
  exact (@run_prints_blocks_in_order Latin1 VariantA
           [py "X_REG0!(GpioPinA, 0x0300);";
            py "X_REG0!(GpioPinB, 0x0304);"] [] eq_refl).
Defined.

(** X7. The run stops at the first line that does not parse: it has printed
    the blocks of the lines before it, prints nothing more, and ends with
    the malformed-input error whatever the lines after it are. *)
Theorem run_stops_at_first_malformed_line
  {U : UnicodeData} (v : variant) (good : list str) (bad : str)
  (rest : list str) (stdout : str) :
  forallb (parses v) good = true ->
  is_empty bad = false ->
  parses v bad = false ->
  main_of v (good ++ bad :: rest) stdout
  = (stdout ++ flat_map (block_of v) good, Raise malformed).
Proof.
  intros Hall Hne Hbad. revert stdout Hall.
  induction good as [|line good IH]; intros stdout Hall.
  - simpl. rewrite app_nil_r. apply main_of_raise; [exact Hne|].
    unfold parses in Hbad.
    destruct (extract_of_total v bad) as [(n & a & H)|H]; [|exact H].
    rewrite H in Hbad. discriminate.
  - simpl in Hall. apply andb_true_iff in Hall as [Hl Hall].
    unfold parses in Hl. simpl. unfold block_of.
    destruct (extract_of v line) as [[n a]|e] eqn:E; [|discriminate].
    rewrite (main_of_step v line _ stdout n a E), (IH _ Hall).
    unfold print. simpl. now rewrite <- !app_assoc.
Qed.

Lemma run_stops_at_first_malformed_line_witness :
  @main_of Latin1 VariantA
    [py "X_REG0!(GpioPinA, 0x0300);"; py "X_REG0!(GpioPinB 0x0304);";
     py "X_REG0!(GpioPinC, 0x0308);"] []
  = (XReg0.generate_code (py "GpioPinA") (py "0x0300") ++ [newline],
     Raise malformed).
Proof.
  exact (@run_stops_at_first_malformed_line Latin1 VariantA
           [py "X_REG0!(GpioPinA, 0x0300);"]
           (py "X_REG0!(GpioPinB 0x0304);")
           [py "X_REG0!(GpioPinC, 0x0308);"] [] eq_refl eq_refl eq_refl).
Defined.

(** * Whole blocks *)

Section BlockFacts.

Lemma no_newline_app a b : no_newline (a ++ b) = no_newline a && no_newline b.
Proof. apply forallb_app. Qed.

Lemma lines_from_text t :
  forall cur s,
    no_newline t = true -> lines_from cur (t ++ s) = lines_from (cur ++ t) s.
Proof.
  induction t as [|c t IH]; intros cur s H.
  - now rewrite app_nil_r.
  - simpl in H. apply andb_true_iff in H as [Hc H].
    simpl. apply negb_true_iff in Hc. rewrite Hc.
    rewrite IH by exact H. now rewrite <- app_assoc.
Qed.

Lemma lines_from_line t s :
  no_newline t = true ->
  lines_from [] (t ++ newline :: s) = t :: lines_from [] s.
Proof.
  intros H. rewrite lines_from_text by exact H. reflexivity.
Qed.

Lemma format_on_one_line n a l :
  forallb part_on_one_line l = true ->
  no_newline n = true -> no_newline a = true ->
  no_newline (flat_map (format_part n a) l) = true.
Proof.
  intros Hl Hn Ha. induction l as [|p l IH]; [reflexivity|].
  simpl in *. apply andb_true_iff in Hl as [Hp Hl].
  rewrite no_newline_app, (IH Hl), andb_true_r.
  now destruct p.
Qed.

(** The lines of a formatted template are its lines, formatted. *)
Lemma splitlines_fstring t n a :
  forallb (forallb part_on_one_line) t = true ->
  no_newline n = true -> no_newline a = true ->
  splitlines (fstring t n a) = map (flat_map (format_part n a)) t.
Proof.
  intros Ht Hn Ha. unfold splitlines, fstring.
  induction t as [|l t IH]; [reflexivity|].
  simpl in *. apply andb_true_iff in Ht as [Hl Ht].
  unfold format_line at 1. rewrite <- app_assoc. simpl.
  rewrite lines_from_line by now apply format_on_one_line.
  now rewrite (IH Ht).
Qed.

Lemma block_read_back v n a :
  no_newline n = true -> no_newline a = true ->
  declared_flags (generate_of v n a) = Some (n, constants_of v)
  /\ flagreg_address n (splitlines (generate_of v n a)) = Some a.
Proof.
  intros Hn Ha.
  assert (L : splitlines (generate_of v n a)
              = map (flat_map (format_part n a)) (template_of v)).
  { destruct v; apply splitlines_fstring; auto. }
  unfold declared_flags. rewrite L.
  destruct v;
    cbn [template_of XReg0.template XReg1.template map flat_map format_part];
    cbn;
    rewrite !strip_suffix_app, str_eqb_refl;
    now split.
Qed.

End BlockFacts.

(** X8. Whatever the register, the block is the same declaration under its
    name: read back, the block of any name and address without a newline in
    them declares the bit-flag type of that very name with the template's
    fixed constants, and binds it to that very address. *)
Theorem block_declares_its_register (v : variant) (name addr : str) :
  no_newline name = true ->
  no_newline addr = true ->
  declared_flags (generate_of v name addr) = Some (name, constants_of v)
  /\ flagreg_address name (splitlines (generate_of v name addr)) = Some addr.
Proof. apply block_read_back. Qed.

Lemma block_declares_its_register_witness :
  declared_flags (XReg1.generate_code (py "GpioDelay3") (py "0x40"))
  = Some (py "GpioDelay3", constants_of VariantB)
  /\ flagreg_address (py "GpioDelay3")
       (splitlines (XReg1.generate_code (py "GpioDelay3") (py "0x40")))
     = Some (py "0x40").
Proof.
  exact (block_declares_its_register VariantB (py "GpioDelay3") (py "0x40")
           eq_refl eq_refl).
Defined.

(** X9. Blocks do not collide: two pairs of name and address without a
    newline in them that give the same block are the same pair. *)
Theorem generate_code_injective
  (v : variant) (name addr name' addr' : str) :
  no_newline name = true -> no_newline addr = true ->
  no_newline name' = true -> no_newline addr' = true ->
  generate_of v name addr = generate_of v name' addr' ->
  name = name' /\ addr = addr'.
Proof.
  intros Hn Ha Hn' Ha' E.
  destruct (block_read_back v name addr Hn Ha) as [D A].
  destruct (block_read_back v name' addr' Hn' Ha') as [D' A'].
  rewrite E, D' in D. injection D as ->.
  rewrite E, A' in A. injection A as ->. now split.
Qed.

Lemma generate_code_injective_witness :
  py "GpioPinA" = py "GpioPinA" /\ py "0x0300" = py "0x0300".
Proof.
  exact (generate_code_injective VariantA (py "GpioPinA") (py "0x0300")
           (py "GpioPinA") (py "0x0300")
           eq_refl eq_refl eq_refl eq_refl eq_refl).
Defined.

(** * Independence of the Unicode tables *)

Section AsciiFacts.
Variables U1 U2 : UnicodeData.

Lemma ascii_is_word s :
  is_ascii s = true ->
  forallb (@is_word U1) s = forallb (@is_word U2) s.
Proof.
  induction s as [|c s IH]; [reflexivity|]. simpl.
  intros H. apply andb_true_iff in H as [Hc H]. rewrite (IH H).
  unfold is_word, isalnum. now rewrite Hc.
Qed.

Lemma ascii_is_space s :
  is_ascii s = true ->
  forallb (@is_space U1) s = forallb (@is_space U2) s.
Proof.
  induction s as [|c s IH]; [reflexivity|]. simpl.
  intros H. apply andb_true_iff in H as [Hc H]. rewrite (IH H).
  unfold is_space, isspace. now rewrite Hc.
Qed.

Lemma ascii_word_token s :
  is_ascii s = true -> @word_token U1 s = @word_token U2 s.
Proof. intros H. unfold word_token. now rewrite (ascii_is_word s H). Qed.
End AsciiFacts.

Lemma ascii_transfer (U1 U2 : UnicodeData) v line name addr :
  is_ascii line = true ->
  @extract_of U1 v line = Return (name, addr) ->
  @extract_of U2 v line = Return (name, addr).
Proof.
  intros Hl H.
  apply extract_of_inv in H as (ws & rest & -> & Hn & Hws & Ha).
  unfold invocation, is_ascii in Hl. rewrite !forallb_app in Hl.
  apply andb_true_iff in Hl as [_ Hl].
  apply andb_true_iff in Hl as [_ Hl].
  apply andb_true_iff in Hl as [An Hl].
  apply andb_true_iff in Hl as [_ Hl].
  apply andb_true_iff in Hl as [Aws Hl].
  apply andb_true_iff in Hl as [Aa _].
  apply extract_of_invocation.
  - now rewrite <- (ascii_word_token U1 U2 name An).
  - now rewrite <- (ascii_is_space U1 U2 ws Aws).
  - now rewrite <- (ascii_word_token U1 U2 addr Aa).
Qed.

(** X10. On a line of ASCII characters the extraction does not depend on
    the Unicode tables: it gives the same result whatever characters above
    code point 127 count as alphanumeric or as white space. *)
Theorem ascii_lines_ignore_unicode_tables
  (U1 U2 : UnicodeData) (v : variant) (line : str) :
  is_ascii line = true ->
  @extract_of U1 v line = @extract_of U2 v line.
Proof.
  intros Hl.
  destruct (@extract_of_total U1 v line) as [(n & a & H1)|H1].
  - now rewrite H1, (ascii_transfer U1 U2 v line n a Hl H1).
  - destruct (@extract_of_total U2 v line) as [(n & a & H2)|H2].
    + rewrite (ascii_transfer U2 U1 v line n a Hl H2) in H1. discriminate.
    + now rewrite H1, H2.
Qed.

Lemma ascii_lines_ignore_unicode_tables_witness :
  @extract_of Latin1 VariantA (py "X_REG0!(GpioPinA, 0x0300);")
  = @extract_of AsciiOnly VariantA (py "X_REG0!(GpioPinA, 0x0300);").
Proof.
  exact (ascii_lines_ignore_unicode_tables Latin1 AsciiOnly VariantA
           (py "X_REG0!(GpioPinA, 0x0300);") eq_refl).
Defined.

(** * Runs and their environment *)

Section RunFacts.

Lemma main_of_appends {U : UnicodeData} v file stdout :
  main_of v file stdout
  = (stdout ++ fst (main_of v file []), snd (main_of v file [])).
Proof. rewrite main_of_eq. apply main_appends. Qed.

Lemma extract_of_ascii (U1 U2 : UnicodeData) v line :
  is_ascii line = true ->
  @extract_of U1 v line = @extract_of U2 v line.
Proof.
  intros Hl.
  destruct (@extract_of_total U1 v line) as [(n & a & H1)|H1].
  - now rewrite H1, (ascii_transfer U1 U2 v line n a Hl H1).
  - destruct (@extract_of_total U2 v line) as [(n & a & H2)|H2].
    + rewrite (ascii_transfer U2 U1 v line n a Hl H2) in H1. discriminate.
    + now rewrite H1, H2.
Qed.

(** On a file of ASCII lines the whole run is the same under any two
    tables. *)
Lemma main_of_ascii (U1 U2 : UnicodeData) v file :
  forallb is_ascii file = true ->
  forall stdout, @main_of U1 v file stdout = @main_of U2 v file stdout.
Proof.
  intros Hf. rewrite (@main_of_eq U1), (@main_of_eq U2).
  induction file as [|line file IH]; intros stdout; [reflexivity|].
  simpl in Hf. apply andb_true_iff in Hf as [Hl Hf].
  cbn [Generator.main]. destruct (is_empty line); [reflexivity|].
  pose proof (extract_of_ascii U1 U2 v line Hl) as E.
  rewrite (@extract_of_eq U1), (@extract_of_eq U2) in E. rewrite E.
  destruct (@Generator.extract_macro_parameters U2 _ line) as [[n a]|e];
    [apply (IH Hf) | reflexivity].
Qed.
End RunFacts.

(** C8. What a run writes and how it ends are determined by the file alone.
    Two runs of a generator on the same file write the same text and end the
    same way: whatever the standard output held before each; also when the
    second run comes after the first, on the output the first has left; and,
    when the two runs are under different Unicode tables, on every file of
    ASCII lines. *)
Theorem generators_deterministic
  (U1 U2 : UnicodeData) (v : variant) (file1 file2 : list str)
  (s1 s2 : str) :
  file1 = file2 ->
  U1 = U2 \/ forallb is_ascii file1 = true ->
  exists written status,
    @main_of U1 v file1 s1 = (s1 ++ written, status)
    /\ @main_of U2 v file2 s2 = (s2 ++ written, status)
    /\ @main_of U2 v file2 (s1 ++ written)
       = ((s1 ++ written) ++ written, status).
Proof.
  intros <- Henv.
  assert (E : forall s, @main_of U2 v file1 s = @main_of U1 v file1 s).
  { destruct Henv as [->|Hf]; [reflexivity|].
    intros s. symmetry. now apply main_of_ascii. }
  exists (fst (@main_of U1 v file1 [])), (snd (@main_of U1 v file1 [])).
  rewrite !E. repeat split; apply main_of_appends.
Qed.

Lemma generators_deterministic_witness :
  exists written status,
    @main_of Latin1 VariantA
      [py "X_REG0!(GpioPinA, 0x0300);"; py "X_REG0!(GpioPinB 0x0304);"] []
    = ([] ++ written, status)
    /\ @main_of AsciiOnly VariantA
         [py "X_REG0!(GpioPinA, 0x0300);"; py "X_REG0!(GpioPinB 0x0304);"]
         (py "// generated")
       = (py "// generated" ++ written, status)
    /\ @main_of AsciiOnly VariantA
         [py "X_REG0!(GpioPinA, 0x0300);"; py "X_REG0!(GpioPinB 0x0304);"]
         ([] ++ written)
       = (([] ++ written) ++ written, status).
Proof.
  exact (generators_deterministic Latin1 AsciiOnly VariantA
           [py "X_REG0!(GpioPinA, 0x0300);"; py "X_REG0!(GpioPinB 0x0304);"]
           [py "X_REG0!(GpioPinA, 0x0300);"; py "X_REG0!(GpioPinB 0x0304);"]
           [] (py "// generated") eq_refl (or_intror eq_refl)).
Defined.
